(** * Vibrations: damped harmonic oscillator evaluator (ex1.py)

    Shallow embedding of [analyse_vibrations] and [create_plot].

    The Python code is written against NumPy scalars and arrays.  The
    embedding is written once over an abstract scalar interface
    ([Scalar]), so that everything that only depends on the shape of the
    computation (lengths, which operation feeds which field, absence of
    a raising path) holds for every interpretation of the arithmetic,
    IEEE binary64 included.  The analytic properties are proved for the
    interpretation of the scalars as real numbers ([R_Scalar]): exact
    arithmetic, no rounding, overflow or underflow.  Single runs are
    also evaluated in binary64 ([B64_Scalar]), the mathematical library
    being a parameter. *)

From Corelib Require Import PrimFloat.
From Stdlib Require Uint63.
From Stdlib Require Import String List ZArith QArith Qreals Reals Lra Lia.
Import ListNotations.


(** ** Outcome of a Python call *)

Inductive pyexn : Type :=
| ValueError (msg : string)
| IndexError (msg : string).

Inductive Outcome (A : Type) : Type :=
| Returned (a : A)
| Raised (e : pyexn).

Arguments Returned {A} a.
Arguments Raised {A} e.

Definition bind {A B : Type} (m : Outcome A) (k : A -> Outcome B) : Outcome B :=
  match m with
  | Returned a => k a
  | Raised e => Raised e
  end.

Notation "x <- m ;; k" := (bind m (fun x => k))
  (at level 61, m at next level, right associativity).

(** ** Scalars

    The operations the source applies to Python floats and NumPy
    float64 values.  [lit] reads a numeric literal of the source;
    [maximum] is the reduction step of [np.max]; [ltb] is the
    comparison behind Python's [max] and [min]. *)

Class Scalar (F : Type) : Type := {
  lit : Q -> F;
  add : F -> F -> F;
  sub : F -> F -> F;
  mul : F -> F -> F;
  div : F -> F -> F;
  opp : F -> F;
  np_sqrt : F -> F;
  np_exp : F -> F;
  np_cos : F -> F;
  np_sin : F -> F;
  np_cosh : F -> F;
  np_sinh : F -> F;
  np_absolute : F -> F;
  maximum : F -> F -> F;
  ltb : F -> F -> bool
}.

Declare Scope py_scope.
Delimit Scope py_scope with py.
Infix "+" := add : py_scope.
Infix "-" := sub : py_scope.
Infix "*" := mul : py_scope.
Infix "/" := div : py_scope.
Notation "- x" := (opp x) : py_scope.

(** One-dimensional arrays. *)
Definition ndarray (F : Type) : Type := list F.

Section NumPy.
Context {F : Type} `{Scalar F}.
Local Open Scope py_scope.

Definition of_nat (n : nat) : F := lit (inject_Z (Z.of_nat n)).

(** [x ** n] for a literal exponent. *)
Fixpoint power (x : F) (n : nat) : F :=
  match n with
  | O => lit 1
  | S k => x * power x k
  end.

(** Python's [max(a, b)] keeps [a] unless [b] is greater; [min(a, b)]
    keeps [a] unless [b] is smaller. *)
Definition py_max (a b : F) : F := if ltb a b then b else a.
Definition py_min (a b : F) : F := if ltb b a then b else a.


(** Replace the last element ([y[-1] = stop]). *)
Fixpoint set_last (y : ndarray F) (v : F) : ndarray F :=
  match y with
  | [] => []
  | [_] => [v]
  | a :: r => a :: set_last r v
  end.

(** [np.linspace(start, stop, num)], endpoint included:
    [arange(0, num) * step + start] with [step = (stop - start) / (num - 1)],
    and the last sample set to [stop].  (For a step equal to zero NumPy
    scales [arange(0, num) / (num - 1)] by [stop - start] instead; the
    length is the same.) *)
Definition linspace (start stop : F) (num : nat) : ndarray F :=
  let step := (stop - start) / of_nat (num - 1) in
  let y := map (fun i => of_nat i * step + start) (seq 0 num) in
  if (1 <? num)%nat then set_last y stop else y.

(** Broadcasting of a scalar against an array, and element-wise
    operations on arrays of one shape. *)
Definition smul (s : F) (a : ndarray F) : ndarray F := map (fun x => s * x) a.
Definition muls (a : ndarray F) (s : F) : ndarray F := map (fun x => x * s) a.
Definition sadd (s : F) (a : ndarray F) : ndarray F := map (fun x => s + x) a.
Definition amul (a b : ndarray F) : ndarray F :=
  map (fun p => fst p * snd p) (combine a b).
Definition aadd (a b : ndarray F) : ndarray F :=
  map (fun p => fst p + snd p) (combine a b).
Definition aopp (a : ndarray F) : ndarray F := map opp a.

Definition exp_ (a : ndarray F) : ndarray F := map np_exp a.
Definition cos_ (a : ndarray F) : ndarray F := map np_cos a.
Definition sin_ (a : ndarray F) : ndarray F := map np_sin a.
Definition cosh_ (a : ndarray F) : ndarray F := map np_cosh a.
Definition sinh_ (a : ndarray F) : ndarray F := map np_sinh a.
Definition np_abs (a : ndarray F) : ndarray F := map np_absolute a.

(** [np.max]: a zero-size array has no maximum. *)
Definition np_max (a : ndarray F) : Outcome F :=
  match a with
  | [] => Raised (ValueError "zero-size array to reduction operation maximum which has no identity")
  | x :: r => Returned (fold_left maximum r x)
  end.

(** [a[i]] for a non-negative index. *)
Definition getitem (a : ndarray F) (i : nat) : Outcome F :=
  match nth_error a i with
  | Some x => Returned x
  | None => Raised (IndexError "index out of bounds")
  end.
End NumPy.

Notation "s *: a" := (smul s a) (at level 40, left associativity) : py_scope.
Notation "a :* s" := (muls a s) (at level 40, left associativity) : py_scope.
Notation "s +: a" := (sadd s a) (at level 50, left associativity) : py_scope.
Notation "a :*: b" := (amul a b) (at level 40, left associativity) : py_scope.
Notation "a :+: b" := (aadd a b) (at level 50, left associativity) : py_scope.
Notation "x ** n" := (power x n) (at level 30, right associativity) : py_scope.

(** ** The evaluator and the chart builder *)

Section Vibrations.
Context {F : Type} `{Scalar F}.
Local Open Scope py_scope.

(** The tuple returned by [analyse_vibrations]. *)
Record Trajectory : Type := mkTrajectory {
  t : ndarray F;
  x_sans : ndarray F;
  x_sous : ndarray F;
  x_critique : ndarray F;
  x_suramorti : ndarray F;
  enveloppe_sous_pos : ndarray F;
  enveloppe_sous_neg : ndarray F;
  amplitude_max : F
}.

(** Number of samples, the literal of line 10. *)
Definition n_samples : nat := 2000.

Definition xi_sans : F := lit 0.
Definition xi_critique : F := lit 1.

(** Damped natural frequencies (lines 14, 18, 31 and 151-152). *)
Definition omega_sans (omega_0 : F) : F :=
  omega_0 * np_sqrt (lit 1 - xi_sans ** 2).
Definition omega_d_sous (omega_0 xi_sous : F) : F :=
  omega_0 * np_sqrt (lit 1 - xi_sous ** 2).
Definition omega_d_sur (omega_0 xi_suramorti : F) : F :=
  omega_0 * np_sqrt (xi_suramorti ** 2 - lit 1).

Definition analyse_vibrations
    (omega_0 x0 v0 xi_sous xi_suramorti t_max : F) : Outcome Trajectory :=
  let t := linspace (lit 0) t_max n_samples in
  (* Cas 1 *)
  let w_sans := omega_sans omega_0 in
  let x_sans :=
    x0 *: cos_ (w_sans *: t) :+: (v0 / w_sans) *: sin_ (w_sans *: t) in
  (* Cas 2 *)
  let w_sous := omega_d_sous omega_0 xi_sous in
  let x_sous :=
    exp_ ((- xi_sous * omega_0) *: t) :*:
      (x0 *: cos_ (w_sous *: t)
       :+: ((v0 + x0 * xi_sous * omega_0) / w_sous) *: sin_ (w_sous *: t)) in
  let enveloppe_sous_pos :=
    exp_ ((- xi_sous * omega_0) *: t) :*
      np_sqrt (x0 ** 2 + ((v0 + x0 * xi_sous * omega_0) / w_sous) ** 2) in
  let enveloppe_sous_neg := aopp enveloppe_sous_pos in
  (* Cas 3 *)
  let x_critique :=
    exp_ ((- omega_0) *: t) :*:
      (x0 *: (lit 1 +: omega_0 *: t) :+: v0 *: t) in
  (* Cas 4 *)
  let w_sur := omega_d_sur omega_0 xi_suramorti in
  let x_suramorti :=
    exp_ ((- xi_suramorti * omega_0) *: t) :*:
      (x0 *: cosh_ (w_sur *: t)
       :+: ((v0 + x0 * xi_suramorti * omega_0) / w_sur) *: sinh_ (w_sur *: t)) in
  (* Amplitudes maximales *)
  m_sans <- np_max (np_abs x_sans) ;;
  m_sous <- np_max (np_abs x_sous) ;;
  m_critique <- np_max (np_abs x_critique) ;;
  m_suramorti <- np_max (np_abs x_suramorti) ;;
  let amplitude_max :=
    py_max (py_max (py_max m_sans m_sous) m_critique) m_suramorti in
  Returned (mkTrajectory t x_sans x_sous x_critique x_suramorti
              enveloppe_sous_pos enveloppe_sous_neg amplitude_max).

(** The call with the default damping ratios and horizon of the
    signature ([xi_sous=0.2, xi_suramorti=1.5, t_max=8]). *)
Definition analyse_vibrations_defaults (omega_0 x0 v0 : F) : Outcome Trajectory :=
  analyse_vibrations omega_0 x0 v0 (lit 0.2) (lit 1.5) (lit 8).

(** *** Charts

    What [create_plot] puts on the axes.  Colours, line widths, font
    sizes, the legend and the grid are not represented. *)

Inductive Label : Type :=
| LabelText (s : string)
| LabelXi (s : string) (xi : F).

Record Curve : Type := mkCurve {
  xdata : ndarray F;
  ydata : ndarray F;
  fmt : string;
  label : option Label
}.

Record Annotation : Type := mkAnnotation {
  text : string;
  xy : F * F;
  xytext : F * F
}.

Record Figure : Type := mkFigure {
  curves : list Curve;
  hlines : list F;
  annotations : list Annotation;
  xlabel : string;
  ylabel : string;
  title : string;
  ylim : option (F * F);
  (** [None]: [set_xlim] was not called, the axis keeps its automatic range. *)
  xlim : option (F * F)
}.

Definition create_plot (tr : Trajectory) (t_max omega_0 x0 v0 xi_sous xi_suramorti : F)
    (zoom : bool) : Outcome Figure :=
  let cs :=
    [ mkCurve (t tr) (x_sans tr) "g-" (Some (LabelXi "Sans amortissement" xi_sans));
      mkCurve (t tr) (x_sous tr) "m-" (Some (LabelXi "Sous-amorti" xi_sous));
      mkCurve (t tr) (x_critique tr) "b-" (Some (LabelXi "Amortissement critique" xi_critique));
      mkCurve (t tr) (x_suramorti tr) "r-" (Some (LabelXi "Sur-amorti" xi_suramorti));
      mkCurve (t tr) (enveloppe_sous_pos tr) "m--" (Some (LabelText "Enveloppe exponentielle"));
      mkCurve (t tr) (enveloppe_sous_neg tr) "m--" None ] in
  let hs := [lit 0] in
  ans <-
    (if negb zoom then
       let y_range := lit 2.0 * amplitude_max tr in
       let y_annot_sans := lit 0.7 * y_range in
       let y_annot_sous := lit 0.5 * y_range in
       let y_annot_critique := lit 0.2 * y_range in
       let y_annot_sur := lit 0.3 * y_range in
       a_sans <- getitem (x_sans tr) 200 ;;
       a_sous <- getitem (x_sous tr) 300 ;;
       a_critique <- getitem (x_critique tr) 150 ;;
       a_sur <- getitem (x_suramorti tr) 250 ;;
       Returned
         [ mkAnnotation "Sans amortissement" (lit 0.8, a_sans)
             (t_max * lit 0.4, y_annot_sans);
           mkAnnotation "Sous-amorti" (lit 1.2, a_sous)
             (t_max * lit 0.5, y_annot_sous);
           mkAnnotation "Amortissement critique" (lit 0.6, a_critique)
             (t_max * lit 0.3, y_annot_critique);
           mkAnnotation "Sur-amorti" (lit 1.0, a_sur)
             (t_max * lit 0.6, y_annot_sur) ]
     else Returned []) ;;
  let ttl :=
    if zoom then "Comportement initial (zoom)"%string
    else "Solutions de l'équation différentielle"%string in
  let y_margin := lit 0.1 * amplitude_max tr in
  let yl := (- amplitude_max tr - y_margin, amplitude_max tr + y_margin) in
  let xl := if zoom then Some (lit 0, py_min (lit 3) t_max) else None in
  Returned (mkFigure cs hs ans "Temps (s)" "Déplacement x(t) (m)" ttl (Some yl) xl).

(** The part of [main] that turns the slider values into the two
    charts (lines 146-171). *)
Definition main_figures (omega_0 x0 v0 t_max xi_sous xi_suramorti : F)
    : Outcome (Figure * Figure) :=
  tr <- analyse_vibrations omega_0 x0 v0 xi_sous xi_suramorti t_max ;;
  fig_complet <- create_plot tr t_max omega_0 x0 v0 xi_sous xi_suramorti false ;;
  fig_zoom <- create_plot tr t_max omega_0 x0 v0 xi_sous xi_suramorti true ;;
  Returned (fig_complet, fig_zoom).
End Vibrations.

Arguments Trajectory F : clear implicits.
Arguments Label F : clear implicits.
Arguments Curve F : clear implicits.
Arguments Annotation F : clear implicits.
Arguments Figure F : clear implicits.

(** ** Sample-wise reading of the array expressions

    Every array of [analyse_vibrations] is built from the time grid by
    broadcasting; these are the same expressions at one sample [tau]. *)

Section Pointwise.
Context {F : Type} `{Scalar F}.
Local Open Scope py_scope.

Definition x_sans_at (omega_0 x0 v0 tau : F) : F :=
  let w := omega_sans omega_0 in
  x0 * np_cos (w * tau) + (v0 / w) * np_sin (w * tau).

Definition x_sous_at (omega_0 x0 v0 xi_sous tau : F) : F :=
  let w := omega_d_sous omega_0 xi_sous in
  np_exp ((- xi_sous * omega_0) * tau) *
    (x0 * np_cos (w * tau)
     + ((v0 + x0 * xi_sous * omega_0) / w) * np_sin (w * tau)).

Definition enveloppe_at (omega_0 x0 v0 xi_sous tau : F) : F :=
  let w := omega_d_sous omega_0 xi_sous in
  np_exp ((- xi_sous * omega_0) * tau) *
    np_sqrt (x0 ** 2 + ((v0 + x0 * xi_sous * omega_0) / w) ** 2).

Definition x_critique_at (omega_0 x0 v0 tau : F) : F :=
  np_exp ((- omega_0) * tau) * (x0 * (lit 1 + omega_0 * tau) + v0 * tau).

Definition x_suramorti_at (omega_0 x0 v0 xi_suramorti tau : F) : F :=
  let w := omega_d_sur omega_0 xi_suramorti in
  np_exp ((- xi_suramorti * omega_0) * tau) *
    (x0 * np_cosh (w * tau)
     + ((v0 + x0 * xi_suramorti * omega_0) / w) * np_sinh (w * tau)).

(** The maximum of a non-empty array, as [np.max] folds it. *)
Definition amax (a : ndarray F) : F :=
  fold_left maximum (tl a) (hd (lit 0) a).

(** The time grid of line 10. *)
Definition time_grid (t_max : F) : ndarray F := linspace (lit 0) t_max n_samples.

(** The returned tuple, every sequence written sample by sample. *)
Definition trajectory_pointwise
    (omega_0 x0 v0 xi_sous xi_suramorti t_max : F) : Trajectory F :=
  let tg := time_grid t_max in
  let xs1 := map (x_sans_at omega_0 x0 v0) tg in
  let xs2 := map (x_sous_at omega_0 x0 v0 xi_sous) tg in
  let xs3 := map (x_critique_at omega_0 x0 v0) tg in
  let xs4 := map (x_suramorti_at omega_0 x0 v0 xi_suramorti) tg in
  mkTrajectory tg xs1 xs2 xs3 xs4
    (map (enveloppe_at omega_0 x0 v0 xi_sous) tg)
    (map (fun tau => - enveloppe_at omega_0 x0 v0 xi_sous tau) tg)
    (py_max (py_max (py_max (amax (np_abs xs1)) (amax (np_abs xs2)))
               (amax (np_abs xs3)))
       (amax (np_abs xs4))).
End Pointwise.

(** ** Real-number interpretation of the scalars *)

#[export] Instance R_Scalar : Scalar R := {|
  lit := Q2R;
  add := Rplus;
  sub := Rminus;
  mul := Rmult;
  div := Rdiv;
  opp := Ropp;
  np_sqrt := sqrt;
  np_exp := exp;
  np_cos := cos;
  np_sin := sin;
  np_cosh := cosh;
  np_sinh := sinh;
  np_absolute := Rabs;
  maximum := Rmax;
  ltb := fun x y => if Rlt_dec x y then true else false
|}.

(** Unfold the scalar operations to their real-number meaning. *)
Ltac rops :=
  cbn [lit add sub mul div opp np_sqrt np_exp np_cos np_sin np_cosh np_sinh
       np_absolute maximum ltb R_Scalar] in *.

(** Parameter sets the specification calls valid. *)
Definition valid_params (omega_0 xi_sous xi_suramorti t_max : R) : Prop :=
  (0 < omega_0 /\ 0 < xi_sous < 1 /\ 1 < xi_suramorti /\ 0 < t_max)%R.

(** Parameter sets the specification wants rejected. *)
Definition invalid_params (omega_0 xi_sous xi_suramorti : R) : Prop :=
  (~ (0 < xi_sous < 1) \/ xi_suramorti <= 1 \/ omega_0 <= 0)%R.

(** Values the sliders of [main] can deliver (lines 128-143). *)
Definition slider_bounds (omega_0 x0 v0 t_max xi_sous xi_suramorti : R) : Prop :=
  (0.1 <= omega_0 <= 10.0 /\ 0.1 <= x0 <= 10.0 /\ -5.0 <= v0 <= 5.0 /\
   2 <= t_max <= 20 /\ 0.01 <= xi_sous <= 0.99 /\
   1.01 <= xi_suramorti <= 3.0)%R.

(** An evaluation is rejected when the call raises. *)
Definition rejected {A : Type} (o : Outcome A) : Prop :=
  exists e, o = Raised e.

(** ** IEEE binary64 interpretation of the scalars

    Sums, products, quotients and square roots are the correctly
    rounded binary64 operations NumPy uses.  The transcendental
    functions come from the platform's mathematical library and are a
    parameter; only their values at zero, fixed by IEEE 754 and by
    Annex F of the C standard, are ever assumed. *)

Record Libm : Type := mkLibm {
  libm_exp : float -> float;
  libm_cos : float -> float;
  libm_sin : float -> float;
  libm_cosh : float -> float;
  libm_sinh : float -> float
}.

Definition libm_at_zero (m : Libm) : Prop :=
  libm_exp m 0%float = 1%float /\
  libm_exp m (-0)%float = 1%float /\
  libm_cos m 0%float = 1%float /\
  libm_sin m 0%float = 0%float /\
  libm_cosh m 0%float = 1%float /\
  libm_sinh m 0%float = 0%float.

(** Integers of small magnitude, as the literals of the source are. *)
Definition float_of_Z (z : Z) : float :=
  match z with
  | Z0 => 0%float
  | Zpos _ => PrimFloat.of_uint63 (Uint63.of_Z z)
  | Zneg q => PrimFloat.opp (PrimFloat.of_uint63 (Uint63.of_Z (Zpos q)))
  end.

(** A decimal literal is the binary64 number nearest to it. *)
Definition float_of_Q (q : Q) : float :=
  PrimFloat.div (float_of_Z (Qnum q)) (float_of_Z (Zpos (Qden q))).

(** [np.maximum] hands a NaN operand on. *)
Definition float_maximum (a b : float) : float :=
  if PrimFloat.is_nan a then a
  else if PrimFloat.is_nan b then b
  else if PrimFloat.ltb a b then b else a.

Definition B64_Scalar (m : Libm) : Scalar float := {|
  lit := float_of_Q;
  add := PrimFloat.add;
  sub := PrimFloat.sub;
  mul := PrimFloat.mul;
  div := PrimFloat.div;
  opp := PrimFloat.opp;
  np_sqrt := PrimFloat.sqrt;
  np_exp := libm_exp m;
  np_cos := libm_cos m;
  np_sin := libm_sin m;
  np_cosh := libm_cosh m;
  np_sinh := libm_sinh m;
  np_absolute := PrimFloat.abs;
  maximum := float_maximum;
  ltb := PrimFloat.ltb
|}.

(** [m] is the greatest element of the non-empty list [l]. *)
Definition is_maximum (m : R) (l : list R) : Prop :=
  In m l /\ Forall (fun x => (x <= m)%R) l.

(** All samples of the four displacement sequences. *)
Definition displacements {F : Type} (tr : Trajectory F) : list F :=
  x_sans tr ++ x_sous tr ++ x_critique tr ++ x_suramorti tr.

(** ** The page: [main] as one run of the script

    Streamlit runs [main] from top to bottom; each widget call puts a
    widget on the page and returns the value the user has set.  One run
    is modelled with the returned values as input ([Widgets]) and, as
    state, the widgets placed so far, the figures pyplot holds open and
    the files written. *)

Inductive Place : Type :=
| Body
| Sidebar
| Col (parent : Place) (i n : nat)
| Expander (label : string).

Section Page.
Context {F : Type} `{Scalar F}.
Local Open Scope py_scope.

(** [np.pi]; the scalar interface has no constant for it. *)
Variable np_pi : F.

Inductive Widget : Type :=
| st_set_page_config (page_title page_icon layout : string)
| st_title (body : string)
| st_markdown (body : string)
| st_header (body : string)
| st_subheader (body : string)
| st_write (body : string)
| st_latex (body : string)
| st_columns (n : nat)
| st_expander (label : string)
| st_slider (label : string) (min_value max_value value step : F)
| st_pyplot (fig : Figure F)
(** [st.metric(label, f"{value:.<decimals>f}<suffix>")] *)
| st_metric (label : string) (value : F) (decimals : nat) (suffix : string)
| st_button (label : string)
| st_success (body : string).

(** What the widgets return in this run. *)
Record Widgets : Type := mkWidgets {
  w_omega_0 : F;
  w_x0 : F;
  w_v0 : F;
  w_t_max : F;
  w_xi_sous : F;
  w_xi_suramorti : F;
  w_save : bool
}.

(** A figure object: its pyplot number and what is drawn on it. *)
Record FigObj : Type := mkFigObj {
  number : nat;
  content : Figure F
}.

Record World : Type := mkWorld {
  page : list (Place * Widget);
  (** numbers of the figures pyplot keeps open *)
  open_figures : list nat;
  (** files written: name, dpi, figure *)
  files : list (string * nat * Figure F)
}.

Definition Run (A : Type) : Type := World -> Outcome (A * World).

Definition ret {A : Type} (a : A) : Run A := fun w => Returned (a, w).

Definition bindR {A B : Type} (m : Run A) (k : A -> Run B) : Run B :=
  fun w =>
    match m w with
    | Returned (a, w') => k a w'
    | Raised e => Raised e
    end.

Definition lift {A : Type} (o : Outcome A) : Run A :=
  fun w =>
    match o with
    | Returned a => Returned (a, w)
    | Raised e => Raised e
    end.

Definition place (p : Place) (e : Widget) : Run unit :=
  fun w => Returned (tt, mkWorld (page w ++ [(p, e)]) (open_figures w) (files w)).

(** A widget call that hands back the user's value. *)
Definition ask {A : Type} (p : Place) (e : Widget) (answer : A) : Run A :=
  bindR (place p e) (fun _ => ret answer).

(** [create_plot] as a call: [plt.subplots] opens a figure under the
    next free number, one more than the largest one in use. *)
Definition create_plot_call (tr : Trajectory F)
    (t_max omega_0 x0 v0 xi_sous xi_suramorti : F) (zoom : bool) : Run FigObj :=
  bindR (lift (create_plot tr t_max omega_0 x0 v0 xi_sous xi_suramorti zoom))
    (fun fig w =>
       let n := S (list_max (open_figures w)) in
       Returned (mkFigObj n fig,
                 mkWorld (page w) (n :: open_figures w) (files w))).

(** [plt.close(fig)] *)
Definition plt_close (fig : FigObj) : Run unit :=
  fun w => Returned (tt, mkWorld (page w)
                           (remove Nat.eq_dec (number fig) (open_figures w))
                           (files w)).

(** [plt.close('all')] *)
Definition plt_close_all : Run unit :=
  fun w => Returned (tt, mkWorld (page w) [] (files w)).

(** [fig.savefig(fname, dpi=dpi, bbox_inches='tight')] *)
Definition savefig (fig : FigObj) (fname : string) (dpi : nat) : Run unit :=
  fun w => Returned (tt, mkWorld (page w) (open_figures w)
                           (files w ++ [(fname, dpi, content fig)])).

Definition markdown_explication : string :=
  "
**Équations différentielles résolues :**

- **Sans amortissement (ξ = 0):**  
x(t) = x₀·cos(ω₀t) + (ẋ₀/ω₀)·sin(ω₀t)

- **Sous-amorti (0 < ξ < 1):**  
x(t) = e^(-ξω₀t)·[x₀·cos(ω_d t) + (ẋ₀ + x₀ξω₀)/ω_d·sin(ω_d t)]  
avec ω_d = ω₀√(1-ξ²)

- **Amortissement critique (ξ = 1):**  
x(t) = e^(-ω₀t)·[x₀(1 + ω₀t) + ẋ₀t]

- **Sur-amorti (ξ > 1):**  
x(t) = e^(-ξω₀t)·[x₀·cosh(ω_d t) + (ẋ₀ + x₀ξω₀)/ω_d·sinh(ω_d t)]  
avec ω_d = ω₀√(ξ²-1)
        ".

Notation "x <~ m ;; k" := (bindR m (fun x => k))
  (at level 61, m at next level, right associativity).
Notation "m ;;; k" := (bindR m (fun _ => k))
  (at level 61, right associativity).

Definition main (ws : Widgets) : Run unit :=
  place Body (st_set_page_config "Analyse des Vibrations" "📈" "wide") ;;;
  place Body (st_title "📈 Analyse des Vibrations Mécaniques") ;;;
  place Body (st_markdown "Cette application visualise les solutions de l'équation différentielle pour différents taux d'amortissement. Ajustez les paramètres ci-dessous pour voir l'effet sur le comportement vibratoire.") ;;;
  (* Sidebar avec les parametres *)
  place Sidebar (st_header "Paramètres d'entrée") ;;;
  place Sidebar (st_columns 2) ;;;
  omega_0 <~ ask (Col Sidebar 1 2)
    (st_slider "Fréquence naturelle ω₀ (rad/s)" (lit 0.1) (lit 10.0) (lit 2.0) (lit 0.1)) (w_omega_0 ws) ;;
  x0 <~ ask (Col Sidebar 1 2)
    (st_slider "Déplacement initial x₀ (m)" (lit 0.1) (lit 10.0) (lit 1.0) (lit 0.1)) (w_x0 ws) ;;
  v0 <~ ask (Col Sidebar 2 2)
    (st_slider "Vitesse initiale ẋ₀ (m/s)" (- lit 5.0) (lit 5.0) (lit 0.5) (lit 0.1)) (w_v0 ws) ;;
  t_max <~ ask (Col Sidebar 2 2)
    (st_slider "Temps maximum (s)" (lit 2) (lit 20) (lit 8) (lit 1)) (w_t_max ws) ;;
  place Sidebar (st_header "Paramètres d'amortissement") ;;;
  xi_sous <~ ask Sidebar
    (st_slider "Taux sous-amorti ξ" (lit 0.01) (lit 0.99) (lit 0.2) (lit 0.01)) (w_xi_sous ws) ;;
  xi_suramorti <~ ask Sidebar
    (st_slider "Taux sur-amorti ξ" (lit 1.01) (lit 3.0) (lit 1.5) (lit 0.1)) (w_xi_suramorti ws) ;;
  (* Calcul des resultats *)
  tr <~ lift (analyse_vibrations omega_0 x0 v0 xi_sous xi_suramorti t_max) ;;
  let w_d_sous := omega_d_sous omega_0 xi_sous in
  let w_d_sur := omega_d_sur omega_0 xi_suramorti in
  (* Affichage des resultats *)
  place Body (st_columns 2) ;;;
  place (Col Body 1 2) (st_subheader "Graphique complet") ;;;
  fig_complet <~ create_plot_call tr t_max omega_0 x0 v0 xi_sous xi_suramorti false ;;
  place (Col Body 1 2) (st_pyplot (content fig_complet)) ;;;
  plt_close fig_complet ;;;
  place (Col Body 2 2) (st_subheader "Comportement initial (zoom)") ;;;
  fig_zoom <~ create_plot_call tr t_max omega_0 x0 v0 xi_sous xi_suramorti true ;;
  place (Col Body 2 2) (st_pyplot (content fig_zoom)) ;;;
  plt_close fig_zoom ;;;
  (* Section des parametres calcules *)
  place Body (st_subheader "📊 Paramètres Calculés") ;;;
  place Body (st_columns 3) ;;;
  place (Col Body 1 3) (st_metric "Amplitude maximale" (amplitude_max tr) 3 " m") ;;;
  place (Col Body 1 3) (st_metric "Fréquence naturelle" omega_0 2 " rad/s") ;;;
  place (Col Body 2 3) (st_metric "Période sous-amortie" (lit 2 * np_pi / w_d_sous) 3 " s") ;;;
  place (Col Body 2 3) (st_metric "ω_d sous-amorti" w_d_sous 3 " rad/s") ;;;
  place (Col Body 3 3) (st_metric "ω_d sur-amorti" w_d_sur 3 " rad/s") ;;;
  place (Col Body 3 3) (st_metric "Décroissance critique" omega_0 2 "") ;;;
  (* Explication theorique *)
  place Body (st_expander "📚 Explication théorique") ;;;
  place (Expander "📚 Explication théorique") (st_markdown markdown_explication) ;;;
  (* Affichage des equations *)
  place Body (st_expander "🧮 Équations détaillées") ;;;
  place (Expander "🧮 Équations détaillées") (st_write "**Sans amortissement:**") ;;;
  place (Expander "🧮 Équations détaillées") (st_latex "x(t) = x_0 \cos(\omega_0 t) + \frac{\dot{x}_0}{\omega_0} \sin(\omega_0 t)") ;;;
  place (Expander "🧮 Équations détaillées") (st_write "**Sous-amorti:**") ;;;
  place (Expander "🧮 Équations détaillées") (st_latex "x(t) = e^{-\xi\omega_0 t} \left[x_0 \cos(\omega_d t) + \frac{\dot{x}_0 + x_0\xi\omega_0}{\omega_d} \sin(\omega_d t)\right]") ;;;
  place (Expander "🧮 Équations détaillées") (st_latex "\omega_d = \omega_0 \sqrt{1 - \xi^2}") ;;;
  place (Expander "🧮 Équations détaillées") (st_write "**Amortissement critique:**") ;;;
  place (Expander "🧮 Équations détaillées") (st_latex "x(t) = e^{-\omega_0 t} \left[x_0 (1 + \omega_0 t) + \dot{x}_0 t\right]") ;;;
  place (Expander "🧮 Équations détaillées") (st_write "**Sur-amorti:**") ;;;
  place (Expander "🧮 Équations détaillées") (st_latex "x(t) = e^{-\xi\omega_0 t} \left[x_0 \cosh(\omega_d t) + \frac{\dot{x}_0 + x_0\xi\omega_0}{\omega_d} \sinh(\omega_d t)\right]") ;;;
  place (Expander "🧮 Équations détaillées") (st_latex "\omega_d = \omega_0 \sqrt{\xi^2 - 1}") ;;;
  (* Telechargement des graphiques *)
  place Sidebar (st_header "Téléchargement") ;;;
  pressed <~ ask Sidebar (st_button "📥 Sauvegarder les graphiques") (w_save ws) ;;
  if (pressed : bool) then
    fig_complet <~ create_plot_call tr t_max omega_0 x0 v0 xi_sous xi_suramorti false ;;
    fig_zoom <~ create_plot_call tr t_max omega_0 x0 v0 xi_sous xi_suramorti true ;;
    savefig fig_complet "vibrations_complet.png" 300 ;;;
    savefig fig_zoom "vibrations_zoom.png" 300 ;;;
    plt_close_all ;;;
    place Sidebar (st_success "Graphiques sauvegardés!")
  else ret tt.
End Page.

Arguments Widget F : clear implicits.
Arguments Widgets F : clear implicits.
Arguments FigObj F : clear implicits.
Arguments World F : clear implicits.

(** ** Metrics shown by [main] *)

(** Underdamped period, [2*np.pi/omega_d_sous] (line 183), over the reals. *)
Definition periode_sous_amortie (omega_0 xi_sous : R) : R :=
  (2 * PI / omega_d_sous omega_0 xi_sous)%R.

(** * Properties *)

(** ** Shapes and sample-wise form, for every scalar interpretation *)

Section Shape.
Context {F : Type} `{Scalar F}.
Local Open Scope py_scope.

Lemma length_set_last (y : ndarray F) (v : F) :
  length (set_last y v) = length y.
Proof.
  induction y as [|a r IH]; [reflexivity|].
  destruct r as [|b r']; [reflexivity|].
  change (set_last (a :: b :: r') v) with (a :: set_last (b :: r') v).
  cbn [length] in *. now rewrite IH.
Qed.

Lemma length_linspace (start stop : F) (num : nat) :
  length (linspace start stop num) = num.
Proof.
  unfold linspace. destruct (1 <? num)%nat.
  - now rewrite length_set_last, length_map, length_seq.
  - now rewrite length_map, length_seq.
Qed.

Lemma length_time_grid (t_max : F) : length (time_grid t_max) = n_samples.
Proof. apply length_linspace. Qed.

Lemma nth_error_set_last (y : ndarray F) (v : F) (i : nat) :
  nth_error (set_last y v) i =
  if (S i =? length y)%nat then Some v else nth_error y i.
Proof.
  revert i. induction y as [|a r IH]; intros i.
  - destruct i; reflexivity.
  - destruct r as [|b r'].
    + destruct i as [|[|i]]; reflexivity.
    + change (set_last (a :: b :: r') v) with (a :: set_last (b :: r') v).
      destruct i as [|i]; [reflexivity|].
      cbn [nth_error]. rewrite IH. reflexivity.
Qed.

(** Samples of [linspace]: the arithmetic progression, except the last
    one, which is [stop] itself. *)
Lemma nth_error_linspace (start stop : F) (num i : nat) :
  (1 < num)%nat -> (i < num)%nat ->
  nth_error (linspace start stop num) i =
  Some (if (S i =? num)%nat then stop
        else of_nat i * ((stop - start) / of_nat (num - 1)) + start).
Proof.
  intros Hn Hi. unfold linspace.
  apply Nat.ltb_lt in Hn as ->.
  rewrite nth_error_set_last, length_map, length_seq.
  destruct (S i =? num)%nat; [reflexivity|].
  rewrite nth_error_map, nth_error_seq.
  apply Nat.ltb_lt in Hi as ->. reflexivity.
Qed.

(** Broadcast expressions are maps over the grid. *)
Lemma x_sans_map (omega_0 x0 v0 : F) (l : ndarray F) :
  let w := omega_sans omega_0 in
  x0 *: cos_ (w *: l) :+: (v0 / w) *: sin_ (w *: l)
  = map (x_sans_at omega_0 x0 v0) l.
Proof.
  induction l as [|a r IH]; [reflexivity|].
  cbn in *. f_equal. exact IH.
Qed.

Lemma x_sous_map (omega_0 x0 v0 xi_sous : F) (l : ndarray F) :
  let w := omega_d_sous omega_0 xi_sous in
  exp_ ((- xi_sous * omega_0) *: l) :*:
    (x0 *: cos_ (w *: l)
     :+: ((v0 + x0 * xi_sous * omega_0) / w) *: sin_ (w *: l))
  = map (x_sous_at omega_0 x0 v0 xi_sous) l.
Proof.
  induction l as [|a r IH]; [reflexivity|].
  cbn in *. f_equal. exact IH.
Qed.

Lemma enveloppe_map (omega_0 x0 v0 xi_sous : F) (l : ndarray F) :
  let w := omega_d_sous omega_0 xi_sous in
  exp_ ((- xi_sous * omega_0) *: l) :*
    np_sqrt (x0 ** 2 + ((v0 + x0 * xi_sous * omega_0) / w) ** 2)
  = map (enveloppe_at omega_0 x0 v0 xi_sous) l.
Proof.
  induction l as [|a r IH]; [reflexivity|].
  cbn in *. f_equal. exact IH.
Qed.

Lemma x_critique_map (omega_0 x0 v0 : F) (l : ndarray F) :
  exp_ ((- omega_0) *: l) :*: (x0 *: (lit 1 +: omega_0 *: l) :+: v0 *: l)
  = map (x_critique_at omega_0 x0 v0) l.
Proof.
  induction l as [|a r IH]; [reflexivity|].
  cbn in *. f_equal. exact IH.
Qed.

Lemma x_suramorti_map (omega_0 x0 v0 xi_suramorti : F) (l : ndarray F) :
  let w := omega_d_sur omega_0 xi_suramorti in
  exp_ ((- xi_suramorti * omega_0) *: l) :*:
    (x0 *: cosh_ (w *: l)
     :+: ((v0 + x0 * xi_suramorti * omega_0) / w) *: sinh_ (w *: l))
  = map (x_suramorti_at omega_0 x0 v0 xi_suramorti) l.
Proof.
  induction l as [|a r IH]; [reflexivity|].
  cbn in *. f_equal. exact IH.
Qed.

Lemma np_max_amax (a : ndarray F) :
  (0 < length a)%nat -> np_max a = Returned (amax a).
Proof.
  destruct a as [|x r]; [intros Hl; inversion Hl|reflexivity].
Qed.

Lemma np_max_abs_map (f : F -> F) (l : ndarray F) :
  (0 < length l)%nat ->
  np_max (np_abs (map f l)) = Returned (amax (np_abs (map f l))).
Proof.
  intros Hl. apply np_max_amax. unfold np_abs. now rewrite !length_map.
Qed.

Lemma n_samples_pos : (0 < n_samples)%nat.
Proof. unfold n_samples. lia. Qed.

(** [analyse_vibrations] returns, on every input, the tuple whose
    sequences are the sample-wise formulas mapped over the time grid. *)
Lemma analyse_vibrations_pointwise (omega_0 x0 v0 xi_sous xi_suramorti t_max : F) :
  analyse_vibrations omega_0 x0 v0 xi_sous xi_suramorti t_max
  = Returned (trajectory_pointwise omega_0 x0 v0 xi_sous xi_suramorti t_max).
Proof.
  unfold analyse_vibrations, trajectory_pointwise, time_grid.
  pose proof (length_linspace (lit 0) t_max n_samples) as Hlen.
  pose proof n_samples_pos as Hpos. rewrite <- Hlen in Hpos. clear Hlen.
  revert Hpos. generalize (linspace (lit 0) t_max n_samples). intros tg Hpos.
  cbv zeta.
  rewrite x_sans_map, x_sous_map, enveloppe_map, x_critique_map, x_suramorti_map.
  rewrite !np_max_abs_map by exact Hpos.
  cbn [bind]. unfold aopp. rewrite map_map. reflexivity.
Qed.
End Shape.

(** ** Structural properties, for every scalar interpretation *)

Section Structure.
Context {F : Type} `{Scalar F}.
Local Open Scope py_scope.

Lemma trajectory_pointwise_lengths (omega_0 x0 v0 xi_sous xi_suramorti t_max : F) :
  let tr := trajectory_pointwise omega_0 x0 v0 xi_sous xi_suramorti t_max in
  length (t tr) = n_samples /\
  length (x_sans tr) = n_samples /\
  length (x_sous tr) = n_samples /\
  length (x_critique tr) = n_samples /\
  length (x_suramorti tr) = n_samples /\
  length (enveloppe_sous_pos tr) = n_samples /\
  length (enveloppe_sous_neg tr) = n_samples.
Proof.
  cbn [trajectory_pointwise t x_sans x_sous x_critique x_suramorti
       enveloppe_sous_pos enveloppe_sous_neg].
  rewrite !length_map, length_time_grid. repeat split.
Qed.

Lemma getitem_in_range (a : ndarray F) (i : nat) :
  (i < length a)%nat -> exists x, getitem a i = Returned x.
Proof.
  intros Hi. unfold getitem.
  destruct (nth_error a i) as [x|] eqn:E.
  - now exists x.
  - apply nth_error_None in E. lia.
Qed.

(** [create_plot] returns as soon as the four displacement sequences
    reach index 300; the time axis is limited exactly when [zoom] is set. *)
Lemma create_plot_xlim (tr : Trajectory F)
    (t_max omega_0 x0 v0 xi_sous xi_suramorti : F) (zoom : bool) :
  (200 < length (x_sans tr))%nat -> (300 < length (x_sous tr))%nat ->
  (150 < length (x_critique tr))%nat -> (250 < length (x_suramorti tr))%nat ->
  exists fig,
    create_plot tr t_max omega_0 x0 v0 xi_sous xi_suramorti zoom = Returned fig /\
    xlim fig = if zoom then Some (lit 0, py_min (lit 3) t_max) else None.
Proof.
  intros H1 H2 H3 H4. unfold create_plot.
  destruct zoom; cbn [negb bind].
  - eexists; split; reflexivity.
  - destruct (getitem_in_range _ _ H1) as [a1 ->].
    destruct (getitem_in_range _ _ H2) as [a2 ->].
    destruct (getitem_in_range _ _ H3) as [a3 ->].
    destruct (getitem_in_range _ _ H4) as [a4 ->].
    cbn [bind]. eexists; split; reflexivity.
Qed.

(** With [zoom] set no sample is read, whatever the sequences are. *)
Lemma create_plot_zoom (tr : Trajectory F)
    (t_max omega_0 x0 v0 xi_sous xi_suramorti : F) :
  exists fig,
    create_plot tr t_max omega_0 x0 v0 xi_sous xi_suramorti true = Returned fig /\
    xlim fig = Some (lit 0, py_min (lit 3) t_max).
Proof. unfold create_plot; cbn [negb bind]. eexists; split; reflexivity. Qed.

Lemma main_figures_xlim (omega_0 x0 v0 t_max xi_sous xi_suramorti : F) :
  exists fig_complet fig_zoom,
    main_figures omega_0 x0 v0 t_max xi_sous xi_suramorti
      = Returned (fig_complet, fig_zoom) /\
    xlim fig_complet = None /\
    xlim fig_zoom = Some (lit 0, py_min (lit 3) t_max).
Proof.
  unfold main_figures. rewrite analyse_vibrations_pointwise. cbn [bind].
  destruct (trajectory_pointwise_lengths omega_0 x0 v0 xi_sous xi_suramorti t_max)
    as (_ & L1 & L2 & L3 & L4 & _).
  set (tr := trajectory_pointwise _ _ _ _ _ _) in *.
  assert (B : (300 < n_samples)%nat) by (unfold n_samples; lia).
  destruct (create_plot_xlim tr t_max omega_0 x0 v0 xi_sous xi_suramorti false)
    as (fc & -> & Hc); try lia.
  destruct (create_plot_zoom tr t_max omega_0 x0 v0 xi_sous xi_suramorti)
    as (fz & -> & Hz).
  cbn [bind]. exists fc, fz. repeat split; assumption.
Qed.
End Structure.

(** ** Real-number interpretation: auxiliary facts *)

Section RealFacts.
Local Open Scope R_scope.

Lemma Q2R_zero : Q2R 0 = 0.
Proof. unfold Q2R; simpl; lra. Qed.

Lemma Q2R_one : Q2R 1 = 1.
Proof. unfold Q2R; simpl; lra. Qed.

Lemma of_nat_INR (n : nat) : of_nat (F:=R) n = INR n.
Proof.
  unfold of_nat; cbn [lit R_Scalar]. unfold Q2R; simpl.
  rewrite INR_IZR_INZ. lra.
Qed.

Lemma R_power_2 (x : R) : power (F:=R) x 2 = x * x.
Proof. cbn [power mul lit R_Scalar]. rewrite Q2R_one. lra. Qed.

Lemma R_py_max (a b : R) : py_max (F:=R) a b = Rmax a b.
Proof.
  unfold py_max, Rmax; cbn [ltb R_Scalar].
  destruct (Rlt_dec a b), (Rle_dec a b); lra.
Qed.

Lemma R_py_min (a b : R) : py_min (F:=R) a b = Rmin a b.
Proof.
  unfold py_min, Rmin; cbn [ltb R_Scalar].
  destruct (Rlt_dec b a), (Rle_dec a b); lra.
Qed.

(** Over the reals the grid is the arithmetic progression of step
    [t_max / 1999], last sample included. *)
Lemma R_time_grid_nth (t_max : R) (i : nat) :
  (i < n_samples)%nat ->
  nth_error (time_grid (F:=R) t_max) i
  = Some (INR i * (t_max / INR (n_samples - 1))).
Proof.
  intros Hi. unfold time_grid.
  rewrite nth_error_linspace by (unfold n_samples in *; lia).
  f_equal. rewrite !of_nat_INR. cbn [lit add sub mul div R_Scalar].
  rewrite Q2R_zero.
  assert (Hn : INR (n_samples - 1) <> 0).
  { apply not_0_INR. unfold n_samples. lia. }
  destruct (Nat.eqb_spec (S i) n_samples) as [E|E].
  - replace (n_samples - 1)%nat with i by lia.
    replace (n_samples - 1)%nat with i in Hn by lia.
    field. exact Hn.
  - lra.
Qed.

Lemma R_time_grid_0 (t_max : R) :
  nth_error (time_grid (F:=R) t_max) 0 = Some 0.
Proof.
  rewrite R_time_grid_nth by apply n_samples_pos.
  f_equal. simpl INR at 1. lra.
Qed.

Lemma R_x_sans_at_0 (omega_0 x0 v0 : R) : x_sans_at omega_0 x0 v0 0 = x0.
Proof.
  unfold x_sans_at. rops.
  rewrite Rmult_0_r, cos_0, sin_0. lra.
Qed.

Lemma R_x_sous_at_0 (omega_0 x0 v0 xi : R) : x_sous_at omega_0 x0 v0 xi 0 = x0.
Proof.
  unfold x_sous_at. rops.
  rewrite !Rmult_0_r, cos_0, sin_0, exp_0. lra.
Qed.

Lemma R_x_critique_at_0 (omega_0 x0 v0 : R) : x_critique_at omega_0 x0 v0 0 = x0.
Proof.
  unfold x_critique_at. rops.
  rewrite !Rmult_0_r, exp_0, Q2R_one. lra.
Qed.

Lemma R_x_suramorti_at_0 (omega_0 x0 v0 xi : R) :
  x_suramorti_at omega_0 x0 v0 xi 0 = x0.
Proof.
  unfold x_suramorti_at. rops.
  rewrite !Rmult_0_r, cosh_0, sinh_0, exp_0. lra.
Qed.

(** Cauchy-Schwarz for one sample: a combination of a cosine and a sine
    is bounded by the length of its coefficient vector. *)
Lemma cos_sin_combination_bound (a b theta : R) :
  - sqrt (a * a + b * b) <= a * cos theta + b * sin theta <= sqrt (a * a + b * b).
Proof.
  assert (Hn : 0 <= a * a + b * b) by nra.
  pose proof (sqrt_pos (a * a + b * b)) as Hs.
  pose proof (sqrt_sqrt _ Hn) as Hss.
  pose proof (sin2_cos2 theta) as Hsc. unfold Rsqr in Hsc.
  set (S := sqrt (a * a + b * b)) in *.
  set (A := a * cos theta + b * sin theta).
  assert (HA : A * A <= S * S).
  { rewrite Hss.
    replace (a * a + b * b)
      with ((a * a + b * b) * (sin theta * sin theta + cos theta * cos theta))
      by (rewrite Hsc; ring).
    unfold A.
    pose proof (Rle_0_sqr (a * sin theta - b * cos theta)) as Hq.
    unfold Rsqr in Hq. lra. }
  split; nra.
Qed.

Lemma R_enveloppe_at_nonneg (omega_0 x0 v0 xi tau : R) :
  0 <= enveloppe_at omega_0 x0 v0 xi tau.
Proof.
  unfold enveloppe_at. rops.
  apply Rmult_le_pos; [left; apply exp_pos | apply sqrt_pos].
Qed.

Lemma R_x_sous_at_bounds (omega_0 x0 v0 xi tau : R) :
  - enveloppe_at omega_0 x0 v0 xi tau
  <= x_sous_at omega_0 x0 v0 xi tau
  <= enveloppe_at omega_0 x0 v0 xi tau.
Proof.
  unfold enveloppe_at, x_sous_at. rewrite !R_power_2. rops.
  set (E := exp _). set (c := (v0 + _) / _). set (theta := _ * tau).
  pose proof (exp_pos (- xi * omega_0 * tau)) as HE. fold E in HE.
  pose proof (cos_sin_combination_bound x0 c theta) as [Hlo Hhi].
  split; nra.
Qed.

(** Bracketing a square root between two non-negative rationals. *)
Lemma sqrt_between (x lo hi : R) :
  0 <= lo -> 0 <= hi -> lo * lo < x < hi * hi -> lo < sqrt x < hi.
Proof.
  intros Hlo Hhi [H1 H2].
  assert (Hx : 0 <= x) by nra.
  pose proof (sqrt_pos x) as Hs.
  pose proof (sqrt_sqrt x Hx) as Hss.
  split; nra.
Qed.

Lemma R_omega_d_sous (omega_0 xi : R) :
  omega_d_sous omega_0 xi = omega_0 * sqrt (1 - xi * xi).
Proof. unfold omega_d_sous. rewrite R_power_2. rops. now rewrite Q2R_one. Qed.

Lemma R_omega_d_sur (omega_0 xi : R) :
  omega_d_sur omega_0 xi = omega_0 * sqrt (xi * xi - 1).
Proof. unfold omega_d_sur. rewrite R_power_2. rops. now rewrite Q2R_one. Qed.

Lemma fold_left_Rmax_upper (r : list R) (x : R) :
  x <= fold_left Rmax r x /\ Forall (fun y => y <= fold_left Rmax r x) r.
Proof.
  revert x. induction r as [|a r IH]; intros x; cbn [fold_left].
  - split; [lra | constructor].
  - destruct (IH (Rmax x a)) as [H1 H2].
    pose proof (Rmax_l x a). pose proof (Rmax_r x a).
    split; [lra|]. constructor; [lra | exact H2].
Qed.

Lemma fold_left_Rmax_attained (r : list R) (x : R) :
  In (fold_left Rmax r x) (x :: r).
Proof.
  revert x. induction r as [|a r IH]; intros x; cbn [fold_left].
  - now left.
  - destruct (IH (Rmax x a)) as [E|Hin].
    + rewrite <- E. unfold Rmax. destruct (Rle_dec x a).
      * right; now left.
      * now left.
    + right; now right.
Qed.

Lemma amax_is_maximum (l : list R) :
  (0 < length l)%nat -> is_maximum (amax l) l.
Proof.
  destruct l as [|x r]; [intros Hl; inversion Hl | intros _].
  unfold amax. cbn [hd tl]. rops. split.
  - apply fold_left_Rmax_attained.
  - destruct (fold_left_Rmax_upper r x) as [H1 H2]. now constructor.
Qed.

Lemma is_maximum_app (a b : R) (l1 l2 : list R) :
  is_maximum a l1 -> is_maximum b l2 -> is_maximum (Rmax a b) (l1 ++ l2).
Proof.
  intros [Ia Fa] [Ib Fb]. split.
  - apply in_or_app. unfold Rmax. destruct (Rle_dec a b); [now right | now left].
  - apply Forall_app. split.
    + eapply Forall_impl; [|exact Fa]. cbn. intros y Hy.
      pose proof (Rmax_l a b). lra.
    + eapply Forall_impl; [|exact Fb]. cbn. intros y Hy.
      pose proof (Rmax_r a b). lra.
Qed.
End RealFacts.

(** ** The evaluator over the reals

    Here the scalars are real numbers: the statements are about the
    formulas as the source writes them, evaluated exactly. *)

Section Evaluator.
Local Open Scope R_scope.







(** C7: for omega_0 = 2.0, x0 = 1.0, v0 = 0.5, xi_sous = 0.2,
    xi_suramorti = 1.5, t_max = 8, the four displacement sequences are
    1.0 at t = 0, the underdamped frequency is 2 * sqrt (1 - 0.04), which
    is 1.9596 to four decimals, and the overdamped one is
    2 * sqrt 1.25, which is 2.2361 to four decimals (scalars read as
    real numbers; [B64_example_run] is the same run in binary64). *)
Theorem example_run :
  exists tr,
    analyse_vibrations 2.0 1.0 0.5 0.2 1.5 8 = Returned tr /\
    nth_error (t tr) 0 = Some 0 /\
    nth_error (x_sans tr) 0 = Some 1.0 /\
    nth_error (x_sous tr) 0 = Some 1.0 /\
    nth_error (x_critique tr) 0 = Some 1.0 /\
    nth_error (x_suramorti tr) 0 = Some 1.0 /\
    omega_d_sous 2.0 0.2 = 2 * sqrt (1 - 0.04) /\
    Rabs (omega_d_sous 2.0 0.2 - 1.9596) < 0.00005 /\
    omega_d_sur 2.0 1.5 = 2 * sqrt 1.25 /\
    Rabs (omega_d_sur 2.0 1.5 - 2.2361) < 0.00005.
Proof.
  rewrite analyse_vibrations_pointwise.
  eexists; split; [reflexivity|].
  cbn [trajectory_pointwise t x_sans x_sous x_critique x_suramorti].
  rewrite !nth_error_map, R_time_grid_0. cbn [option_map].
  rewrite R_x_sans_at_0, R_x_sous_at_0, R_x_critique_at_0, R_x_suramorti_at_0.
  rewrite R_omega_d_sous, R_omega_d_sur.
  replace (1 - 0.2 * 0.2) with (1 - 0.04) by lra.
  replace (1.5 * 1.5 - 1) with 1.25 by lra.
  replace (2.0) with 2 by lra.
  assert (H1 : 0.979775 < sqrt (1 - 0.04) < 0.979825)
    by (apply sqrt_between; lra).
  assert (H2 : 1.118025 < sqrt 1.25 < 1.118045)
    by (apply sqrt_between; lra).
  repeat split; try reflexivity; try (apply Rabs_def1; lra).
Qed.




End Evaluator.

(** ** Contract of the evaluator, for every scalar interpretation *)

Local Open Scope R_scope.








(** ** Runs in binary64 *)

Local Set Warnings "-inexact-float".

Section Binary64.
Variable m : Libm.
Hypothesis Hm : libm_at_zero m.
Let ops : Scalar float := B64_Scalar m.
Existing Instance ops.

(** The hypothesis on the library is satisfiable. *)
Lemma libm_at_zero_inhabited : exists m0 : Libm, libm_at_zero m0.
Proof.
  exists (mkLibm (fun _ => 1%float) (fun _ => 1%float) (fun x => x)
            (fun _ => 1%float) (fun x => x)).
  repeat split.
Qed.

Lemma B64_time_grid_0 (t_max : float) :
  nth_error (time_grid t_max) 0
  = Some (PrimFloat.add
            (PrimFloat.mul 0 (PrimFloat.div (PrimFloat.sub t_max 0) 1999)) 0)%float.
Proof.
  unfold time_grid.
  rewrite nth_error_linspace by (unfold n_samples; lia).
  reflexivity.
Qed.

(** The example of the specification, run in binary64: the four
    sequences start at 1.0 and the two damped frequencies are the
    doubles printed as 1.9595917942265424 and 2.2360679774997898. *)
Lemma B64_example_run :
  exists tr,
    analyse_vibrations 2%float 1%float 0.5%float 0.2%float 1.5%float 8%float
      = Returned tr /\
    nth_error (t tr) 0 = Some 0%float /\
    nth_error (x_sans tr) 0 = Some 1%float /\
    nth_error (x_sous tr) 0 = Some 1%float /\
    nth_error (x_critique tr) 0 = Some 1%float /\
    nth_error (x_suramorti tr) 0 = Some 1%float /\
    omega_d_sous 2%float 0.2%float = 1.9595917942265424%float /\
    omega_d_sur 2%float 1.5%float = 2.2360679774997898%float.
Proof.
  pose proof Hm as Hz. vm_compute in Hz.
  destruct Hz as (E0 & E0' & C0 & S0 & Ch0 & Sh0).
  rewrite analyse_vibrations_pointwise.
  eexists; split; [reflexivity|].
  cbn [trajectory_pointwise t x_sans x_sous x_critique x_suramorti].
  rewrite !nth_error_map, B64_time_grid_0. cbn [option_map].
  unfold x_sans_at, x_sous_at, x_critique_at, x_suramorti_at.
  vm_compute.
  rewrite ?E0, ?E0', ?C0, ?S0, ?Ch0, ?Sh0.
  repeat split.
Qed.

(** With xi_sous = 1.0 the call returns, and the underdamped sequence
    starts with NaN: the damped frequency is 0, the quotient by it is
    infinite and its product with sin 0 is not a number. *)
Lemma B64_xi_sous_one_gives_nan :
  exists tr,
    analyse_vibrations 2%float 1%float 0.5%float 1%float 1.5%float 8%float
      = Returned tr /\
    nth_error (x_sous tr) 0 = Some PrimFloat.nan.
Proof.
  pose proof Hm as Hz. vm_compute in Hz.
  destruct Hz as (E0 & E0' & C0 & S0 & Ch0 & Sh0).
  rewrite analyse_vibrations_pointwise.
  eexists; split; [reflexivity|].
  cbn [trajectory_pointwise x_sous].
  rewrite !nth_error_map, B64_time_grid_0. cbn [option_map].
  unfold x_sous_at.
  vm_compute.
  rewrite ?E0, ?E0', ?C0, ?S0.
  reflexivity.
Qed.
End Binary64.

(** * Further properties of the evaluator *)

Section Physics.
Local Open Scope R_scope.

Lemma R_xi_sans : xi_sans (F:=R) = 0.
Proof. unfold xi_sans. rops. apply Q2R_zero. Qed.

Lemma R_omega_sans (omega_0 : R) : omega_sans omega_0 = omega_0.
Proof.
  unfold omega_sans. rewrite R_power_2, R_xi_sans. rops. rewrite Q2R_one.
  replace (1 - 0 * 0) with 1 by lra. rewrite sqrt_1. lra.
Qed.

Lemma R_time_grid_range (t_max tau : R) :
  0 <= t_max -> In tau (time_grid t_max) -> 0 <= tau <= t_max.
Proof.
  intros Ht Hin. apply In_nth_error in Hin as [i Hi].
  assert (Hlt : (i < n_samples)%nat).
  { rewrite <- (length_time_grid (F:=R) t_max). apply nth_error_Some. congruence. }
  rewrite R_time_grid_nth in Hi by exact Hlt. injection Hi as <-.
  assert (Hn : 0 < INR (n_samples - 1)).
  { apply lt_0_INR. unfold n_samples. lia. }
  assert (Hi0 : 0 <= INR i) by apply pos_INR.
  assert (Hi1 : INR i <= INR (n_samples - 1)) by (apply le_INR; lia).
  assert (Hs : 0 <= t_max / INR (n_samples - 1)).
  { apply Rmult_le_pos; [lra|]. left. now apply Rinv_0_lt_compat. }
  assert (Heq : INR (n_samples - 1) * (t_max / INR (n_samples - 1)) = t_max)
    by (field; lra).
  split; [apply Rmult_le_pos; lra|].
  rewrite <- Heq at 2. apply Rmult_le_compat_r; lra.
Qed.







Lemma R_time_grid_mono (t_max : R) (i j : nat) (a b : R) :
  0 <= t_max -> (i <= j)%nat ->
  nth_error (time_grid t_max) i = Some a ->
  nth_error (time_grid t_max) j = Some b -> a <= b.
Proof.
  intros Ht Hij Ha Hb.
  assert (Hj : (j < n_samples)%nat).
  { rewrite <- (length_time_grid (F:=R) t_max). apply nth_error_Some. congruence. }
  rewrite R_time_grid_nth in Ha by lia. rewrite R_time_grid_nth in Hb by lia.
  injection Ha as <-. injection Hb as <-.
  assert (Hn : 0 < INR (n_samples - 1)).
  { apply lt_0_INR. unfold n_samples. lia. }
  apply Rmult_le_compat_r; [|apply le_INR; exact Hij].
  apply Rmult_le_pos; [lra|]. left. now apply Rinv_0_lt_compat.
Qed.

Lemma R_enveloppe_at_antitone (omega_0 x0 v0 xi tau1 tau2 : R) :
  0 <= xi * omega_0 -> tau1 <= tau2 ->
  enveloppe_at omega_0 x0 v0 xi tau2 <= enveloppe_at omega_0 x0 v0 xi tau1.
Proof.
  intros Hk Ht. unfold enveloppe_at. rops.
  apply Rmult_le_compat_r; [apply sqrt_pos|].
  destruct (Req_dec (- xi * omega_0 * tau2) (- xi * omega_0 * tau1)) as [E|E];
    [rewrite E; lra|].
  left. apply exp_increasing.
  pose proof (Rmult_le_compat_l _ _ _ Hk Ht). lra.
Qed.




Lemma R_amplitude_max_is_maximum (omega_0 x0 v0 xi_sous xi_suramorti t_max : R) :
  let tr := trajectory_pointwise omega_0 x0 v0 xi_sous xi_suramorti t_max in
  is_maximum (amplitude_max tr) (map Rabs (displacements tr)).
Proof.
  unfold displacements.
  cbn [trajectory_pointwise amplitude_max x_sans x_sous x_critique x_suramorti].
  pose proof (length_time_grid (F:=R) t_max) as Hlen.
  pose proof n_samples_pos as Hpos. rewrite <- Hlen in Hpos. clear Hlen.
  revert Hpos. generalize (time_grid (F:=R) t_max). intros tg Hpos.
  rewrite !R_py_max, !map_app, !app_assoc.
  assert (Hmax : forall f : R -> R,
             is_maximum (amax (np_abs (map f tg))) (map Rabs (map f tg))).
  { intros f. apply (amax_is_maximum (map Rabs (map f tg))).
    now rewrite !length_map. }
  apply is_maximum_app; [apply is_maximum_app; [apply is_maximum_app|]|];
    apply Hmax.
Qed.



Lemma cosh_pos (x : R) : 0 < cosh x.
Proof.
  unfold cosh. pose proof (exp_pos x). pose proof (exp_pos (- x)). lra.
Qed.

Lemma sinh_nonneg (x : R) : 0 <= x -> 0 <= sinh x.
Proof.
  intros Hx. unfold sinh.
  destruct (Req_dec x 0) as [->|Hn].
  - rewrite Ropp_0. lra.
  - assert (H : exp (- x) < exp x) by (apply exp_increasing; lra). lra.
Qed.









Lemma fold_left_Rmax_scale (r : R) (l : list R) (x : R) :
  0 <= r ->
  fold_left Rmax (map (Rmult r) l) (r * x) = r * fold_left Rmax l x.
Proof.
  intros Hr. revert x. induction l as [|a l IH]; intros x; cbn [map fold_left].
  - reflexivity.
  - rewrite RmaxRmult by exact Hr. apply IH.
Qed.

Lemma amax_scale (r : R) (l : list R) :
  0 <= r -> amax (map (Rmult r) l) = r * amax l.
Proof.
  intros Hr. destruct l as [|x l]; unfold amax; cbn [map hd tl]; rops.
  - cbn [fold_left]. rewrite Q2R_zero. lra.
  - now apply fold_left_Rmax_scale.
Qed.

Lemma amax_abs_scale (k : R) (f g : R -> R) (tg : list R) :
  (forall tau, g tau = k * f tau) ->
  amax (np_abs (map g tg)) = Rabs k * amax (np_abs (map f tg)).
Proof.
  intros Hfg. rewrite <- amax_scale by apply Rabs_pos.
  f_equal. unfold np_abs. rewrite !map_map. apply map_ext.
  intros tau. rops. now rewrite Hfg, Rabs_mult.
Qed.

Lemma R_x_sans_at_scale (k omega_0 x0 v0 tau : R) :
  x_sans_at omega_0 (k * x0) (k * v0) tau = k * x_sans_at omega_0 x0 v0 tau.
Proof. unfold x_sans_at. rops. unfold Rdiv. ring. Qed.

Lemma R_x_sous_at_scale (k omega_0 x0 v0 xi tau : R) :
  x_sous_at omega_0 (k * x0) (k * v0) xi tau = k * x_sous_at omega_0 x0 v0 xi tau.
Proof. unfold x_sous_at. rops. unfold Rdiv. ring. Qed.

Lemma R_x_critique_at_scale (k omega_0 x0 v0 tau : R) :
  x_critique_at omega_0 (k * x0) (k * v0) tau = k * x_critique_at omega_0 x0 v0 tau.
Proof. unfold x_critique_at. rops. ring. Qed.

Lemma R_x_suramorti_at_scale (k omega_0 x0 v0 xi tau : R) :
  x_suramorti_at omega_0 (k * x0) (k * v0) xi tau
  = k * x_suramorti_at omega_0 x0 v0 xi tau.
Proof. unfold x_suramorti_at. rops. unfold Rdiv. ring. Qed.

Lemma R_enveloppe_at_scale (k omega_0 x0 v0 xi tau : R) :
  enveloppe_at omega_0 (k * x0) (k * v0) xi tau
  = Rabs k * enveloppe_at omega_0 x0 v0 xi tau.
Proof.
  unfold enveloppe_at. rewrite !R_power_2. rops.
  set (w := omega_d_sous omega_0 xi).
  replace (k * x0 * (k * x0)
           + (k * v0 + k * x0 * xi * omega_0) / w * ((k * v0 + k * x0 * xi * omega_0) / w))
    with (Rsqr k * (x0 * x0 + (v0 + x0 * xi * omega_0) / w * ((v0 + x0 * xi * omega_0) / w)))
    by (unfold Rsqr, Rdiv; ring).
  rewrite sqrt_mult; [|apply Rle_0_sqr|].
  - rewrite sqrt_Rsqr_abs. ring.
  - pose proof (Rle_0_sqr x0) as H1.
    pose proof (Rle_0_sqr ((v0 + x0 * xi * omega_0) / w)) as H2.
    unfold Rsqr in H1, H2. lra.
Qed.



End Physics.

(** * Further properties of the charts *)

Section Charts.
Context {F : Type} `{Scalar F}.
Local Open Scope py_scope.

Lemma getitem_out_of_range (a : ndarray F) (i : nat) :
  (length a <= i)%nat -> exists msg, getitem a i = Raised (IndexError msg).
Proof.
  intros Hi. unfold getitem.
  apply nth_error_None in Hi. rewrite Hi. eexists; reflexivity.
Qed.

Lemma getitem_Returned (a : ndarray F) (i : nat) (x : F) :
  getitem a i = Returned x -> nth_error a i = Some x.
Proof.
  unfold getitem. destruct (nth_error a i); [|discriminate].
  now intros [= ->].
Qed.

(** What a returned figure holds. *)
Lemma create_plot_inv (tr : Trajectory F)
    (t_max omega_0 x0 v0 xi_sous xi_suramorti : F) (zoom : bool) (fig : Figure F) :
  create_plot tr t_max omega_0 x0 v0 xi_sous xi_suramorti zoom = Returned fig ->
  map ydata (curves fig)
    = [x_sans tr; x_sous tr; x_critique tr; x_suramorti tr;
       enveloppe_sous_pos tr; enveloppe_sous_neg tr] /\
  map xdata (curves fig) = [t tr; t tr; t tr; t tr; t tr; t tr] /\
  hlines fig = [lit 0] /\
  ylim fig = Some (- amplitude_max tr - lit 0.1 * amplitude_max tr,
                   amplitude_max tr + lit 0.1 * amplitude_max tr) /\
  if zoom then annotations fig = []
  else exists a1 a2 a3 a4,
      nth_error (x_sans tr) 200 = Some a1 /\
      nth_error (x_sous tr) 300 = Some a2 /\
      nth_error (x_critique tr) 150 = Some a3 /\
      nth_error (x_suramorti tr) 250 = Some a4 /\
      map xy (annotations fig)
        = [(lit 0.8, a1); (lit 1.2, a2); (lit 0.6, a3); (lit 1.0, a4)].
Proof.
  unfold create_plot. destruct zoom; cbn [negb bind].
  - intros [= <-].
    cbn [curves hlines ylim annotations map ydata xdata xy]. repeat split.
  - destruct (getitem (x_sans tr) 200) as [a1|] eqn:E1; [|discriminate].
    destruct (getitem (x_sous tr) 300) as [a2|] eqn:E2; [|discriminate].
    destruct (getitem (x_critique tr) 150) as [a3|] eqn:E3; [|discriminate].
    destruct (getitem (x_suramorti tr) 250) as [a4|] eqn:E4; [|discriminate].
    cbn [bind]. intros [= <-].
    cbn [curves hlines ylim annotations map ydata xdata xy]. repeat split.
    exists a1, a2, a3, a4.
    repeat split; try reflexivity; now apply getitem_Returned.
Qed.
(** Where the full-view chart puts the text of its annotations. *)
Lemma create_plot_xytext (tr : Trajectory F)
    (t_max omega_0 x0 v0 xi_sous xi_suramorti : F) (fig : Figure F) :
  create_plot tr t_max omega_0 x0 v0 xi_sous xi_suramorti false = Returned fig ->
  map xytext (annotations fig)
  = [(t_max * lit 0.4, lit 0.7 * (lit 2.0 * amplitude_max tr));
     (t_max * lit 0.5, lit 0.5 * (lit 2.0 * amplitude_max tr));
     (t_max * lit 0.3, lit 0.2 * (lit 2.0 * amplitude_max tr));
     (t_max * lit 0.6, lit 0.3 * (lit 2.0 * amplitude_max tr))].
Proof.
  unfold create_plot. cbn [negb bind].
  destruct (getitem (x_sans tr) 200) as [a1|]; [|discriminate].
  destruct (getitem (x_sous tr) 300) as [a2|]; [|discriminate].
  destruct (getitem (x_critique tr) 150) as [a3|]; [|discriminate].
  destruct (getitem (x_suramorti tr) 250) as [a4|]; [|discriminate].
  cbn [bind]. intros [= <-]. reflexivity.
Qed.
End Charts.


Lemma main_figures_inv (F : Type) (ops : Scalar F)
    (omega_0 x0 v0 t_max xi_sous xi_suramorti : F) :
  exists tr fig_complet fig_zoom,
    analyse_vibrations omega_0 x0 v0 xi_sous xi_suramorti t_max = Returned tr /\
    create_plot tr t_max omega_0 x0 v0 xi_sous xi_suramorti false
      = Returned fig_complet /\
    create_plot tr t_max omega_0 x0 v0 xi_sous xi_suramorti true
      = Returned fig_zoom /\
    main_figures omega_0 x0 v0 t_max xi_sous xi_suramorti
      = Returned (fig_complet, fig_zoom).
Proof.
  unfold main_figures. rewrite analyse_vibrations_pointwise. cbn [bind].
  destruct (trajectory_pointwise_lengths omega_0 x0 v0 xi_sous xi_suramorti t_max)
    as (_ & L1 & L2 & L3 & L4 & _).
  set (tr := trajectory_pointwise _ _ _ _ _ _) in *.
  assert (B : (300 < n_samples)%nat) by (unfold n_samples; lia).
  destruct (create_plot_xlim tr t_max omega_0 x0 v0 xi_sous xi_suramorti false)
    as (fc & Ec & _); try lia.
  destruct (create_plot_zoom tr t_max omega_0 x0 v0 xi_sous xi_suramorti)
    as (fz & Ez & _).
  exists tr, fc, fz. rewrite Ec, Ez. cbn [bind]. repeat split.
Qed.

Section ChartsOverReals.
Local Open Scope R_scope.

Lemma R_displacements_bounded (omega_0 x0 v0 xi_sous xi_suramorti t_max : R) :
  let tr := trajectory_pointwise omega_0 x0 v0 xi_sous xi_suramorti t_max in
  0 <= amplitude_max tr /\
  Forall (fun y => - amplitude_max tr <= y <= amplitude_max tr) (displacements tr).
Proof.
  intros tr.
  destruct (R_amplitude_max_is_maximum omega_0 x0 v0 xi_sous xi_suramorti t_max)
    as [Hin Hall].
  fold tr in Hin, Hall. split.
  - apply in_map_iff in Hin as (y & <- & _). apply Rabs_pos.
  - rewrite Forall_forall in *. intros y Hy.
    specialize (Hall (Rabs y) (in_map Rabs _ _ Hy)). cbn beta in Hall.
    pose proof (Rle_abs y) as H1. pose proof (Rle_abs (- y)) as H2.
    rewrite Rabs_Ropp in H2. lra.
Qed.

Lemma R_analyse_displacements_bounded
    (omega_0 x0 v0 xi_sous xi_suramorti t_max : R) (tr : Trajectory R) :
  analyse_vibrations omega_0 x0 v0 xi_sous xi_suramorti t_max = Returned tr ->
  0 <= amplitude_max tr /\
  Forall (fun y => - amplitude_max tr <= y <= amplitude_max tr) (displacements tr).
Proof.
  rewrite analyse_vibrations_pointwise. intros [= <-].
  apply R_displacements_bounded.
Qed.



Lemma R_time_grid_at (t_max : R) (i : nat) :
  (i < n_samples)%nat ->
  nth_error (time_grid (F:=R) t_max) i
  = Some (IZR (Z.of_nat i) * t_max / 1999).
Proof.
  intros Hi. rewrite R_time_grid_nth by exact Hi. f_equal.
  rewrite !INR_IZR_INZ.
  replace (Z.of_nat (n_samples - 1)) with 1999%Z by reflexivity.
  field.
Qed.

Lemma R_analyse_time_grid
    (omega_0 x0 v0 xi_sous xi_suramorti t_max : R) (tr : Trajectory R) :
  analyse_vibrations omega_0 x0 v0 xi_sous xi_suramorti t_max = Returned tr ->
  t tr = time_grid t_max.
Proof. rewrite analyse_vibrations_pointwise. now intros [= <-]. Qed.

Lemma not_integer_7996 (n : Z) : IZR n <> 7.996.
Proof.
  intros E.
  assert (E' : IZR (n * 1000) = IZR 7996) by (rewrite mult_IZR; lra).
  apply eq_IZR in E'. lia.
Qed.


Lemma R_analyse_amplitude_at_least_x0
    (omega_0 x0 v0 xi_sous xi_suramorti t_max : R) (tr : Trajectory R) :
  analyse_vibrations omega_0 x0 v0 xi_sous xi_suramorti t_max = Returned tr ->
  Rabs x0 <= amplitude_max tr.
Proof.
  rewrite analyse_vibrations_pointwise. intros [= <-].
  destruct (R_amplitude_max_is_maximum omega_0 x0 v0 xi_sous xi_suramorti t_max)
    as [_ Hall].
  rewrite Forall_forall in Hall. apply Hall.
  apply in_map. unfold displacements. apply in_or_app. left.
  cbn [trajectory_pointwise x_sans].
  pose proof (R_time_grid_0 t_max) as H0. apply nth_error_In in H0.
  rewrite <- (R_x_sans_at_0 omega_0 x0 v0) at 1.
  apply in_map. exact H0.
Qed.



End ChartsOverReals.

(** * The page *)

Lemma fresh_number_unused (l : list nat) : ~ In (S (list_max l)) l.
Proof.
  intros Hin.
  assert (Hle : Forall (fun k => (k <= list_max l)%nat) l)
    by (apply list_max_le; lia).
  rewrite Forall_forall in Hle. specialize (Hle _ Hin). lia.
Qed.

Lemma remove_fresh_number (l : list nat) :
  remove Nat.eq_dec (S (list_max l)) (S (list_max l) :: l) = l.
Proof.
  rewrite remove_cons. apply notin_remove. apply fresh_number_unused.
Qed.

Ltac find_widget :=
  repeat match goal with
         | |- In _ (_ ++ [_]) =>
             apply in_or_app; first [right; left; reflexivity | left]
         end.

(** One run of [main], from any state of the page and of pyplot. *)
Lemma main_run (F : Type) (ops : Scalar F) (np_pi : F) (ws : Widgets F) (w0 : World F) :
  exists fig_complet fig_zoom w1,
    main_figures (w_omega_0 ws) (w_x0 ws) (w_v0 ws) (w_t_max ws)
      (w_xi_sous ws) (w_xi_suramorti ws) = Returned (fig_complet, fig_zoom) /\
    main np_pi ws w0 = Returned (tt, w1) /\
    In (Col Body 1 2, st_pyplot fig_complet) (page w1) /\
    In (Col Body 2 2, st_pyplot fig_zoom) (page w1) /\
    open_figures w1 = (if w_save ws then [] else open_figures w0) /\
    files w1 = files w0 ++
      (if w_save ws
       then [("vibrations_complet.png"%string, 300%nat, fig_complet);
             ("vibrations_zoom.png"%string, 300%nat, fig_zoom)]
       else []).
Proof.
  destruct (main_figures_inv F ops (w_omega_0 ws) (w_x0 ws) (w_v0 ws) (w_t_max ws)
              (w_xi_sous ws) (w_xi_suramorti ws))
    as (tr & fc & fz & Ha & Ec & Ez & Hm).
  exists fc, fz.
  cbv beta iota zeta delta [main bindR ask place ret lift create_plot_call plt_close
                         plt_close_all savefig
                         page open_figures files number content].
  rewrite Ha.
  cbv beta iota zeta delta [page open_figures files number content].
  rewrite Ec.
  cbv beta iota zeta delta [page open_figures files number content].
  rewrite Ez.
  cbv beta iota zeta delta [page open_figures files number content].
  rewrite !remove_fresh_number.
  destruct (w_save ws).
  - eexists. split; [exact Hm|]. split; [reflexivity|].
    cbv beta iota zeta delta [page open_figures files].
    split; [find_widget|]. split; [find_widget|].
    split; [reflexivity|]. now rewrite <- app_assoc.
  - eexists. split; [exact Hm|]. split; [reflexivity|].
    cbv beta iota zeta delta [page open_figures files].
    split; [find_widget|]. split; [find_widget|].
    split; [reflexivity|]. now rewrite app_nil_r.
Qed.


